(** * A table based finite state machine: fsm.h / fsm.c

    The engine keeps, in a handle owned by its caller, a table of
    [FSM_MAX_NR_OF_STATES] state definitions and the index of the current
    state.  [fsmInit] clears the table and sets the first state, [fsmAdd]
    registers the three functions of one state, [fsmRun] executes the machine
    once.

    The three functions are embedded from fsm.c statement by statement.
    [fsmInit] and [fsmAdd] touch the handle only and are functions on it.
    [fsmRun] calls into user code: it lives in a small monad whose state is
    the handle, the environment the user functions act on and the log of the
    calls made, and whose failure is an access outside the table. *)

From Equations Require Import Equations.
From Equations.Prop Require Import Logic.
From stdpp Require Import base option list.
From Stdlib Require Import NArith ZArith Lia.

#[local] Open Scope N_scope.

(** ** Data model (fsm.h) *)

(** [uint8_t] values are naturals below [2^8]; [to_uint8] is the conversion
    to that type, applied where the code computes or receives such a value.
    Arguments of type [uint8_t] are taken as they are given: what is proved
    for every [N] holds for every [uint8_t]. *)
Definition UINT8_MAX : N := 255.

Definition to_uint8 (n : N) : N := n mod (UINT8_MAX + 1).

Arguments to_uint8 : simpl never.

(** [#define FSM_MAX_NR_OF_STATES (uint8_t)10U] *)
Definition FSM_MAX_NR_OF_STATES : N := to_uint8 10.

(** A function pointer is the address of a function of the program; the
    functions themselves are given by the program (see [Section Engine]).
    [NULL] is the address no function has. *)
Definition fptr : Type := N.

Definition NULL : fptr := 0.

(** [typedef struct { FsmStateFunc_t* stateFunc; FsmOnEntryFunc_t* onEntryFunc;
    FsmOnExitFunc_t* onExitFunc; } FsmStateDef_t;] *)
Record FsmStateDef_t : Type := mkStateDef {
  stateFunc : fptr;
  onEntryFunc : fptr;
  onExitFunc : fptr
}.

(** [typedef struct { uint8_t currentState;
    FsmStateDef_t table[FSM_MAX_NR_OF_STATES]; } FsmHandle_t;] *)
Record FsmHandle_t : Type := mkHandle {
  currentState : N;
  table : list FsmStateDef_t
}.

(** The array type fixes the number of slots; a handle of the C type always
    satisfies [handle_ok]. *)
Definition handle_ok (h : FsmHandle_t) : Prop :=
  length (table h) = N.to_nat FSM_MAX_NR_OF_STATES.

(** The slot with no function at all. *)
Definition empty_slot : FsmStateDef_t := mkStateDef NULL NULL NULL.

(** Assignments to one member of [table[i]].  The indices the code writes at
    are guarded by [i < FSM_MAX_NR_OF_STATES]. *)
Definition with_stateFunc (f : fptr) (d : FsmStateDef_t) : FsmStateDef_t :=
  mkStateDef f (onEntryFunc d) (onExitFunc d).

Definition with_onEntryFunc (f : fptr) (d : FsmStateDef_t) : FsmStateDef_t :=
  mkStateDef (stateFunc d) f (onExitFunc d).

Definition with_onExitFunc (f : fptr) (d : FsmStateDef_t) : FsmStateDef_t :=
  mkStateDef (stateFunc d) (onEntryFunc d) f.

Definition store_slot (i : N) (upd : FsmStateDef_t -> FsmStateDef_t)
    (h : FsmHandle_t) : FsmHandle_t :=
  mkHandle (currentState h) (alter upd (N.to_nat i) (table h)).

Definition store_currentState (s : N) (h : FsmHandle_t) : FsmHandle_t :=
  mkHandle s (table h).

(** ** fsmInit (fsm.c, lines 45-66) *)

(** Body of the loop at lines 51-53. *)
Definition fsmInit_body (i : N) (h : FsmHandle_t) : FsmHandle_t :=
  store_slot i (with_onExitFunc NULL)
    (store_slot i (with_onEntryFunc NULL)
       (store_slot i (with_stateFunc NULL) h)).

(** [for (uint8_t i = 0; i < FSM_MAX_NR_OF_STATES; i++)], entered with the
    counter at [i].  The counter is 8 bits wide and [i++] wraps; the loop
    ends because the bound is below [UINT8_MAX]. *)
#[local] Unset Equations With Funext.

Equations? fsmInit_loop (i : N) (h : FsmHandle_t) : FsmHandle_t
    by wf (N.to_nat (FSM_MAX_NR_OF_STATES - i)) lt :=
  fsmInit_loop i h with inspect (i <? FSM_MAX_NR_OF_STATES) => {
    | exist _ true Hlt => fsmInit_loop (to_uint8 (i + 1)) (fsmInit_body i h);
    | exist _ false _ => h }.
Proof.
  apply N.ltb_lt in Hlt. unfold to_uint8.
  assert (FSM_MAX_NR_OF_STATES <= UINT8_MAX) by (vm_compute; discriminate).
  rewrite N.mod_small by lia. lia.
Qed.

(** Return codes are [int8_t]. *)
Definition fsmInit (fsmHandle : FsmHandle_t) (initState : N) : FsmHandle_t * Z :=
  let stateAdded := (-1)%Z in
  let fsmHandle := fsmInit_loop 0 fsmHandle in
  if initState <? FSM_MAX_NR_OF_STATES
  then (store_currentState initState fsmHandle, 0%Z)
  else (store_currentState 0 fsmHandle, stateAdded).

(** ** fsmAdd (fsm.c, lines 79-91) *)

Definition fsmAdd (fsmHandle : FsmHandle_t) (state : N)
    (stateFunc' onEntryFunc' onExitFunc' : fptr) : FsmHandle_t * Z :=
  let stateAdded := (-1)%Z in
  if (state <? FSM_MAX_NR_OF_STATES) && negb (stateFunc' =? NULL)
  then
    (store_slot state (with_onExitFunc onExitFunc')
       (store_slot state (with_onEntryFunc onEntryFunc')
          (store_slot state (with_stateFunc stateFunc') fsmHandle)), 0%Z)
  else (fsmHandle, stateAdded).

(** ** Calls into user code *)

(** The places of [fsmRun] that call through a function pointer: line 102,
    line 108 and line 112. *)
Inductive call_site : Type := AtStateFunc | AtOnExitFunc | AtOnEntryFunc.

(** One call: where it was made, the function called, and the handle as the
    callee finds it. *)
Record event : Type := mkEvent {
  site : call_site;
  callee : fptr;
  seen : FsmHandle_t
}.

(** A run either completes or indexes the table outside its bounds, which C
    leaves undefined. *)
Inductive outcome (A : Type) : Type :=
  | Done (a : A)
  | OutOfBounds (i : N).

Arguments Done {A} a.
Arguments OutOfBounds {A} i.

Section Engine.

(** What the user functions act on: the globals and peripherals of the
    program. *)
Context {Env : Type}.

(** The program's functions of type [FsmStateFunc_t] ([uint8_t f(void)]) and
    of types [FsmOnEntryFunc_t], [FsmOnExitFunc_t] ([void f(void)]), by
    address.  They take no argument and act on the environment.  The handle
    belongs to the caller of [fsmRun] (a local of [main] in the example of
    fsm.h): a function is given the handle as it is at the call, to look at,
    and does not write it. *)
Variable stateFuncs : fptr -> FsmHandle_t -> Env -> Env * N.
Variable voidFuncs : fptr -> FsmHandle_t -> Env -> Env.

Record world : Type := mkWorld {
  fsm : FsmHandle_t;
  env : Env;
  calls : list event
}.

Definition run (A : Type) : Type := world -> outcome (A * world).

#[local] Instance run_ret : MRet run := fun A a w => Done (a, w).

#[local] Instance run_bind : MBind run := fun A B k m w =>
  match m w with
  | Done (a, w') => k a w'
  | OutOfBounds i => OutOfBounds i
  end.

(** [fsmHandle->currentState] *)
Definition load_currentState : run N :=
  fun w => Done (currentState (fsm w), w).

(** [fsmHandle->table[i]] *)
Definition load_slot (i : N) : run FsmStateDef_t :=
  fun w =>
    match table (fsm w) !! N.to_nat i with
    | Some d => Done (d, w)
    | None => OutOfBounds i
    end.

(** [fsmHandle->table[fsmHandle->currentState]] *)
Definition load_current_slot : run FsmStateDef_t :=
  cur ← load_currentState; load_slot cur.

(** [fsmHandle->currentState = s] *)
Definition assign_currentState (s : N) : run unit :=
  fun w => Done (tt, mkWorld (store_currentState s (fsm w)) (env w) (calls w)).

(** [f()] for [f] of type [FsmStateFunc_t*]; the result is a [uint8_t]. *)
Definition call_stateFunc (f : fptr) : run N :=
  fun w =>
    let '(e, r) := stateFuncs f (fsm w) (env w) in
    Done (to_uint8 r,
          mkWorld (fsm w) e (calls w ++ [mkEvent AtStateFunc f (fsm w)])).

(** [f()] for [f] of type [FsmOnEntryFunc_t*] or [FsmOnExitFunc_t*]. *)
Definition call_voidFunc (at_ : call_site) (f : fptr) : run unit :=
  fun w =>
    Done (tt,
          mkWorld (fsm w) (voidFuncs f (fsm w) (env w))
                  (calls w ++ [mkEvent at_ f (fsm w)])).

(** ** fsmRun (fsm.c, lines 98-117) *)
Definition fsmRun : run unit :=
  d ← load_current_slot;
  if negb (NULL =? stateFunc d) then
    d ← load_current_slot;
    stateNext ← call_stateFunc (stateFunc d);
    cur ← load_currentState;
    if negb (cur =? stateNext) then
      d ← load_current_slot;
      (if negb (NULL =? onExitFunc d) then
         d ← load_current_slot;
         call_voidFunc AtOnExitFunc (onExitFunc d)
       else mret tt);;
      d ← load_slot stateNext;
      (if negb (NULL =? onEntryFunc d) then
         d ← load_slot stateNext;
         call_voidFunc AtOnEntryFunc (onEntryFunc d)
       else mret tt);;
      assign_currentState stateNext
    else mret tt
  else mret tt.

(** The call of a hook that may be [NULL]: what it adds to the log and what
    it does to the environment. *)
Definition hook_call (at_ : call_site) (f : fptr) (h : FsmHandle_t) : list event :=
  if NULL =? f then [] else [mkEvent at_ f h].

Definition hook_effect (f : fptr) (h : FsmHandle_t) (e : Env) : Env :=
  if NULL =? f then e else voidFuncs f h e.

Definition current_slot (h : FsmHandle_t) : option FsmStateDef_t :=
  table h !! N.to_nat (currentState h).

(** The five ways through [fsmRun], with what each of them leaves. *)

Inductive fsmRun_path (w : world) : outcome (unit * world) -> Prop :=
  | path_current_outside :
      current_slot (fsm w) = None ->
      fsmRun_path w (OutOfBounds (currentState (fsm w)))
  | path_idle d :
      current_slot (fsm w) = Some d ->
      stateFunc d = NULL ->
      fsmRun_path w (Done (tt, w))
  | path_stay d e1 r :
      current_slot (fsm w) = Some d ->
      stateFunc d <> NULL ->
      stateFuncs (stateFunc d) (fsm w) (env w) = (e1, r) ->
      to_uint8 r = currentState (fsm w) ->
      fsmRun_path w
        (Done (tt, mkWorld (fsm w) e1
                 (calls w ++ [mkEvent AtStateFunc (stateFunc d) (fsm w)])))
  | path_transition d tgt e1 r :
      current_slot (fsm w) = Some d ->
      stateFunc d <> NULL ->
      stateFuncs (stateFunc d) (fsm w) (env w) = (e1, r) ->
      to_uint8 r <> currentState (fsm w) ->
      table (fsm w) !! N.to_nat (to_uint8 r) = Some tgt ->
      fsmRun_path w
        (Done (tt,
           mkWorld (store_currentState (to_uint8 r) (fsm w))
             (hook_effect (onEntryFunc tgt) (fsm w)
                (hook_effect (onExitFunc d) (fsm w) e1))
             (calls w ++ mkEvent AtStateFunc (stateFunc d) (fsm w)
                :: hook_call AtOnExitFunc (onExitFunc d) (fsm w)
                ++ hook_call AtOnEntryFunc (onEntryFunc tgt) (fsm w))))
  | path_target_outside d e1 r :
      current_slot (fsm w) = Some d ->
      stateFunc d <> NULL ->
      stateFuncs (stateFunc d) (fsm w) (env w) = (e1, r) ->
      to_uint8 r <> currentState (fsm w) ->
      table (fsm w) !! N.to_nat (to_uint8 r) = None ->
      fsmRun_path w (OutOfBounds (to_uint8 r)).

(** ** Driving the machine *)

(** The calls a program makes on one handle. *)
Inductive api_call : Type :=
  | Init (initState : N)
  | Add (state : N) (stateFunc' onEntryFunc' onExitFunc' : fptr)
  | Run.

Definition on_handle (f : FsmHandle_t -> FsmHandle_t * Z) : run unit :=
  fun w => Done (tt, mkWorld (fst (f (fsm w))) (env w) (calls w)).

Definition api (c : api_call) : run unit :=
  match c with
  | Init s => on_handle (fun h => fsmInit h s)
  | Add s f en ex => on_handle (fun h => fsmAdd h s f en ex)
  | Run => fsmRun
  end.

Fixpoint api_seq (cs : list api_call) : run unit :=
  match cs with
  | [] => mret tt
  | c :: cs' => api c;; api_seq cs'
  end.

(** [n] calls of [fsmRun] in a row. *)
Fixpoint fsmRun_times (n : nat) : run unit :=
  match n with
  | O => mret tt
  | S n' => fsmRun;; fsmRun_times n'
  end.

End Engine.

Arguments world : clear implicits.
Arguments run : clear implicits.
Arguments mkWorld {Env} fsm env calls.

(** The states a program can bring a handle to: [fsmInit] on any handle of
    the C type, then any calls. *)
Definition reachable {Env : Type}
    (stateFuncs : fptr -> FsmHandle_t -> Env -> Env * N)
    (voidFuncs : fptr -> FsmHandle_t -> Env -> Env)
    (w : world Env) : Prop :=
  exists (w0 : world Env) (initState : N) (cs : list api_call),
    handle_ok (fsm w0) /\
    api_seq stateFuncs voidFuncs (Init initState :: cs) w0 = Done (tt, w).

Definition valid_state (h : FsmHandle_t) : Prop :=
  currentState h < FSM_MAX_NR_OF_STATES.


(** ** A program on the engine *)

(** The environment of the program: an input the state functions poll, and
    a record the entry and exit functions write, each with its own address
    and the [currentState] it finds. *)
Record demo_env : Type := mkDemoEnv {
  flag : bool;
  record : list (fptr * N)
}.

(** State functions, by address: 1 goes to state 1; 2 stays in state 1 until
    the input is set and then goes to state 2; 3 goes back to state 0; 4
    returns 200; 5 goes to state 7. *)
Definition demo_stateFuncs (f : fptr) (h : FsmHandle_t) (e : demo_env)
    : demo_env * N :=
  (e, match f with
      | 1 => 1
      | 2 => if flag e then 2 else 1
      | 3 => 0
      | 4 => 200
      | 5 => 7
      | _ => 0
      end).

Definition demo_voidFuncs (f : fptr) (h : FsmHandle_t) (e : demo_env)
    : demo_env :=
  mkDemoEnv (flag e) (record e ++ [(f, currentState h)]).

(** A handle as a program may find it before [fsmInit]: nothing in it is
    meaningful. *)
Definition stale_handle : FsmHandle_t :=
  mkHandle 200 (replicate 10 (mkStateDef 11 12 13)).

(** [fsmInit] on a stale handle, then five states registered. *)
Definition demo_setup (initState : N) : list api_call :=
  [ Init initState;
    Add 0 1 NULL 10;
    Add 1 2 11 NULL;
    Add 2 3 12 13;
    Add 3 5 NULL NULL;
    Add 4 4 NULL 14 ].

Definition demo_table : list FsmStateDef_t :=
  [ mkStateDef 1 NULL 10; mkStateDef 2 11 NULL; mkStateDef 3 12 13;
    mkStateDef 5 NULL NULL; mkStateDef 4 NULL 14;
    empty_slot; empty_slot; empty_slot; empty_slot; empty_slot ].

Definition demo_world (s : N) (input : bool) : world demo_env :=
  mkWorld (mkHandle s demo_table) (mkDemoEnv input []) [].

(** A program whose state functions keep to the table: the one at address
    [f] goes to state [f mod FSM_MAX_NR_OF_STATES]. *)
Definition polite_stateFuncs (f : fptr) (h : FsmHandle_t) (e : demo_env)
    : demo_env * N :=
  (e, f mod FSM_MAX_NR_OF_STATES).

(** ** What a sequence of calls registers *)


(** The function a call through one of the three places takes from a
    slot. *)
Definition member_at (at_ : call_site) (d : FsmStateDef_t) : fptr :=
  match at_ with
  | AtStateFunc => stateFunc d
  | AtOnExitFunc => onExitFunc d
  | AtOnEntryFunc => onEntryFunc d
  end.

(** * Properties *)

(** Closed facts about concrete handles and indices. *)
Ltac by_evaluation :=
  vm_compute; first [reflexivity | discriminate | intro; discriminate].


(** ** Stores into the table *)

Lemma FSM_MAX_NR_OF_STATES_le_UINT8_MAX : FSM_MAX_NR_OF_STATES <= UINT8_MAX.
Proof. vm_compute. discriminate. Qed.

Lemma to_uint8_small (n : N) : n <= UINT8_MAX -> to_uint8 n = n.
Proof. intros Hn. unfold to_uint8. apply N.mod_small. lia. Qed.

Lemma to_uint8_range (n : N) : to_uint8 n <= UINT8_MAX.
Proof.
  unfold to_uint8.
  assert (n mod (UINT8_MAX + 1) < UINT8_MAX + 1) by (apply N.mod_lt; discriminate).
  lia.
Qed.

(** Writing the three members of one slot sets the whole slot. *)
Lemma store_three_members (i : N) (f en ex : fptr) (h : FsmHandle_t) :
  store_slot i (with_onExitFunc ex)
    (store_slot i (with_onEntryFunc en) (store_slot i (with_stateFunc f) h))
  = store_slot i (fun _ => mkStateDef f en ex) h.
Proof.
  unfold store_slot. cbn [currentState table]. f_equal.
  rewrite !list_alter_alter_eq. apply list_alter_ext; [|reflexivity].
  intros [] _. reflexivity.
Qed.

Lemma store_slot_lookup_eq (i : N) (d : FsmStateDef_t) (h : FsmHandle_t) :
  (N.to_nat i < length (table h))%nat ->
  table (store_slot i (fun _ => d) h) !! N.to_nat i = Some d.
Proof.
  intros Hi. cbn. rewrite list_lookup_alter_eq.
  destruct (lookup_lt_is_Some_2 _ _ Hi) as [x ->]. reflexivity.
Qed.

Lemma store_slot_lookup_ne (i : N) upd (h : FsmHandle_t) (j : nat) :
  j <> N.to_nat i -> table (store_slot i upd h) !! j = table h !! j.
Proof. intros Hj. cbn. apply list_lookup_alter_ne. congruence. Qed.

Lemma store_slot_length (i : N) upd (h : FsmHandle_t) :
  length (table (store_slot i upd h)) = length (table h).
Proof. cbn. apply length_alter. Qed.

Lemma store_slot_currentState (i : N) upd (h : FsmHandle_t) :
  currentState (store_slot i upd h) = currentState h.
Proof. reflexivity. Qed.

Lemma store_slot_store_slot_eq (i : N) (d d' : FsmStateDef_t) (h : FsmHandle_t) :
  store_slot i (fun _ => d') (store_slot i (fun _ => d) h)
  = store_slot i (fun _ => d') h.
Proof.
  unfold store_slot. cbn [currentState table]. f_equal.
  rewrite list_alter_alter_eq. reflexivity.
Qed.

Lemma store_slot_commute (i j : N) upd upd' (h : FsmHandle_t) :
  i <> j ->
  store_slot j upd' (store_slot i upd h) = store_slot i upd (store_slot j upd' h).
Proof.
  intros Hij. unfold store_slot. cbn [currentState table]. f_equal.
  apply list_alter_alter_ne. lia.
Qed.

(** ** fsmInit *)

Lemma fsmInit_body_eq (i : N) (h : FsmHandle_t) :
  fsmInit_body i h = store_slot i (fun _ => empty_slot) h.
Proof. apply store_three_members. Qed.

(** The loop entered at [i] leaves the slots below [i] alone and clears the
    slots from [i] up to the bound. *)
Lemma fsmInit_loop_spec (i : N) (h : FsmHandle_t) :
  handle_ok h ->
  i <= FSM_MAX_NR_OF_STATES ->
  fsmInit_loop i h
  = mkHandle (currentState h)
      (take (N.to_nat i) (table h)
       ++ replicate (N.to_nat (FSM_MAX_NR_OF_STATES - i)) empty_slot).
Proof.
  funelim (fsmInit_loop i h); intros Hok Hi; clear Heqcall.
  - pose proof (proj1 (N.ltb_lt _ _) Hlt) as Hlt'.
    pose proof FSM_MAX_NR_OF_STATES_le_UINT8_MAX as Hmax.
    rewrite to_uint8_small in * by lia.
    rewrite H; [|unfold handle_ok;
      rewrite fsmInit_body_eq, store_slot_length; exact Hok|lia].
    rewrite fsmInit_body_eq. cbn [currentState]. f_equal.
    replace (N.to_nat (i + 1)) with (S (N.to_nat i)) by lia.
    replace (N.to_nat (FSM_MAX_NR_OF_STATES - i))
      with (S (N.to_nat (FSM_MAX_NR_OF_STATES - (i + 1)))) by lia.
    assert (Hlen : (N.to_nat i < length (table h))%nat)
      by (unfold handle_ok in Hok; lia).
    rewrite (take_S_r _ _ empty_slot) by (apply store_slot_lookup_eq, Hlen).
    cbn [table store_slot]. rewrite take_alter_ge by lia.
    rewrite <- app_assoc. reflexivity.
  - pose proof (proj1 (N.ltb_ge _ _) e) as Hge. assert (i = FSM_MAX_NR_OF_STATES) as -> by lia.
    rewrite N.sub_diag. cbn [replicate N.to_nat]. rewrite app_nil_r.
    rewrite take_ge by (unfold handle_ok in Hok; lia).
    destruct h; reflexivity.
Qed.

Lemma fsmInit_loop_clears (h : FsmHandle_t) :
  handle_ok h ->
  fsmInit_loop 0 h
  = mkHandle (currentState h)
      (replicate (N.to_nat FSM_MAX_NR_OF_STATES) empty_slot).
Proof.
  intros Hok. rewrite fsmInit_loop_spec by (exact Hok || lia).
  rewrite N.sub_0_r. reflexivity.
Qed.

(** ** fsmAdd *)

Lemma fsmAdd_success (h : FsmHandle_t) (state : N) (f en ex : fptr) :
  state < FSM_MAX_NR_OF_STATES -> f <> NULL ->
  fsmAdd h state f en ex
  = (store_slot state (fun _ => mkStateDef f en ex) h, 0%Z).
Proof.
  intros Hs Hf. unfold fsmAdd.
  apply N.ltb_lt in Hs as ->. apply N.eqb_neq in Hf as ->. cbn [andb negb].
  rewrite store_three_members. reflexivity.
Qed.

Lemma fsmAdd_failure (h : FsmHandle_t) (state : N) (f en ex : fptr) :
  FSM_MAX_NR_OF_STATES <= state \/ f = NULL ->
  fsmAdd h state f en ex = (h, (-1)%Z).
Proof.
  intros [Hs | ->]; unfold fsmAdd.
  - apply N.ltb_ge in Hs as ->. reflexivity.
  - rewrite N.eqb_refl, andb_false_r. reflexivity.
Qed.

Lemma fsmAdd_cases (h : FsmHandle_t) (state : N) (f en ex : fptr) :
  (state < FSM_MAX_NR_OF_STATES /\ f <> NULL) \/
  (FSM_MAX_NR_OF_STATES <= state \/ f = NULL).
Proof.
  destruct (N.lt_ge_cases state FSM_MAX_NR_OF_STATES);
    destruct (N.eq_dec f NULL); auto.
Qed.

(** C3. For every handle and every [initState], [fsmInit] clears the three
    function pointers of every slot of the table, whatever [initState] is;
    when [initState < FSM_MAX_NR_OF_STATES] it sets [currentState] to
    [initState] and returns 0 (success), and when
    [initState >= FSM_MAX_NR_OF_STATES] it sets [currentState] to 0 and
    returns -1 (failure). *)
Theorem fsmInit_contract (h : FsmHandle_t) (initState : N) :
  handle_ok h ->
  table (fst (fsmInit h initState))
    = replicate (N.to_nat FSM_MAX_NR_OF_STATES) empty_slot /\
  (initState < FSM_MAX_NR_OF_STATES ->
     currentState (fst (fsmInit h initState)) = initState /\
     snd (fsmInit h initState) = 0%Z) /\
  (FSM_MAX_NR_OF_STATES <= initState ->
     currentState (fst (fsmInit h initState)) = 0 /\
     snd (fsmInit h initState) = (-1)%Z).
Proof.
  intros Hok. unfold fsmInit. cbn zeta.
  rewrite (fsmInit_loop_clears h Hok).
  destruct (N.ltb_spec initState FSM_MAX_NR_OF_STATES) as [Hlt | Hge];
    cbn [fst snd store_currentState table currentState].
  - split; [reflexivity|]. split; [auto|]. intros. lia.
  - split; [reflexivity|]. split; [|auto]. intros. lia.
Qed.

Lemma fsmInit_contract_witness :
  handle_ok stale_handle /\
  table (fst (fsmInit stale_handle 12)) = replicate 10 empty_slot /\
  currentState (fst (fsmInit stale_handle 12)) = 0 /\
  snd (fsmInit stale_handle 12) = (-1)%Z.
Proof.
  assert (Hok : handle_ok stale_handle) by by_evaluation.
  destruct (fsmInit_contract stale_handle 12 Hok) as (Htable & _ & Hhigh).
  destruct Hhigh as [Hcur Hrc]; [by_evaluation|].
  repeat split; assumption.
Defined.

(** C4. [fsmAdd] fails (returns -1) exactly when
    [state >= FSM_MAX_NR_OF_STATES] or [stateFunc] is [NULL]; it returns 0
    otherwise; and when it fails the handle, and so every slot of the table,
    is as it was. *)
Theorem fsmAdd_fails_iff (h : FsmHandle_t) (state : N) (f en ex : fptr) :
  (snd (fsmAdd h state f en ex) = (-1)%Z <->
     FSM_MAX_NR_OF_STATES <= state \/ f = NULL) /\
  (snd (fsmAdd h state f en ex) <> (-1)%Z -> snd (fsmAdd h state f en ex) = 0%Z) /\
  (snd (fsmAdd h state f en ex) = (-1)%Z -> fst (fsmAdd h state f en ex) = h).
Proof.
  destruct (fsmAdd_cases h state f en ex) as [[Hs Hf] | Hbad].
  - rewrite fsmAdd_success by assumption. cbn [fst snd].
    repeat split; try discriminate.
    intros [Hge | Hnull]; [lia | contradiction].
  - rewrite fsmAdd_failure by assumption. cbn [fst snd].
    repeat split; auto. intros Hne. contradiction.
Qed.

(** C5. For every [state < FSM_MAX_NR_OF_STATES] and every [stateFunc] other
    than [NULL], [fsmAdd] returns 0 and slot [state] then holds exactly the
    three pointers passed, whatever it held before; a second [fsmAdd] on the
    same state gives what that second call alone gives. *)
Theorem fsmAdd_registers (h : FsmHandle_t) (state : N) (f en ex : fptr) :
  handle_ok h ->
  state < FSM_MAX_NR_OF_STATES ->
  f <> NULL ->
  snd (fsmAdd h state f en ex) = 0%Z /\
  table (fst (fsmAdd h state f en ex)) !! N.to_nat state
    = Some (mkStateDef f en ex) /\
  (forall f' en' ex' : fptr,
     f' <> NULL ->
     fsmAdd (fst (fsmAdd h state f en ex)) state f' en' ex'
     = fsmAdd h state f' en' ex').
Proof.
  intros Hok Hs Hf. rewrite fsmAdd_success by assumption. cbn [fst snd].
  split; [reflexivity|]. split.
  - apply store_slot_lookup_eq. unfold handle_ok in Hok. lia.
  - intros f' en' ex' Hf'. rewrite !fsmAdd_success by assumption.
    rewrite store_slot_store_slot_eq. reflexivity.
Qed.

Lemma fsmAdd_registers_witness :
  handle_ok stale_handle /\ 3 < FSM_MAX_NR_OF_STATES /\ 21 <> NULL /\
  snd (fsmAdd stale_handle 3 21 NULL 23) = 0%Z /\
  table (fst (fsmAdd stale_handle 3 21 NULL 23)) !! 3%nat
    = Some (mkStateDef 21 NULL 23) /\
  fsmAdd (fst (fsmAdd stale_handle 3 21 NULL 23)) 3 31 32 NULL
    = fsmAdd stale_handle 3 31 32 NULL.
Proof.
  assert (Hok : handle_ok stale_handle) by by_evaluation.
  assert (Hs : 3 < FSM_MAX_NR_OF_STATES) by by_evaluation.
  assert (Hf : 21 <> NULL) by by_evaluation.
  destruct (fsmAdd_registers stale_handle 3 21 NULL 23 Hok Hs Hf)
    as (Hrc & Hslot & Hagain).
  split; [exact Hok|]. split; [exact Hs|]. split; [exact Hf|].
  split; [exact Hrc|]. split; [exact Hslot|].
  apply Hagain. by_evaluation.
Defined.

(** C8. For two different states and registrations that are both valid,
    [fsmAdd] for the one and then for the other gives the same handle as in
    the other order, and each of the calls returns 0. *)
Theorem fsmAdd_commute (h : FsmHandle_t)
    (s1 : N) (f1 en1 ex1 : fptr) (s2 : N) (f2 en2 ex2 : fptr) :
  s1 <> s2 ->
  s1 < FSM_MAX_NR_OF_STATES -> f1 <> NULL ->
  s2 < FSM_MAX_NR_OF_STATES -> f2 <> NULL ->
  fsmAdd (fst (fsmAdd h s1 f1 en1 ex1)) s2 f2 en2 ex2
  = (fst (fsmAdd (fst (fsmAdd h s2 f2 en2 ex2)) s1 f1 en1 ex1), 0%Z) /\
  fsmAdd (fst (fsmAdd h s2 f2 en2 ex2)) s1 f1 en1 ex1
  = (fst (fsmAdd (fst (fsmAdd h s1 f1 en1 ex1)) s2 f2 en2 ex2), 0%Z) /\
  snd (fsmAdd h s1 f1 en1 ex1) = 0%Z /\
  snd (fsmAdd h s2 f2 en2 ex2) = 0%Z.
Proof.
  intros Hne Hs1 Hf1 Hs2 Hf2. rewrite !fsmAdd_success by assumption.
  cbn [fst snd]. rewrite (store_slot_commute s1 s2) by assumption.
  repeat split.
Qed.

Lemma fsmAdd_commute_witness :
  fsmAdd (fst (fsmAdd stale_handle 0 21 22 NULL)) 9 31 NULL 33
  = (fst (fsmAdd (fst (fsmAdd stale_handle 9 31 NULL 33)) 0 21 22 NULL), 0%Z).
Proof.
  apply (fsmAdd_commute stale_handle 0 21 22 NULL 9 31 NULL 33); by_evaluation.
Defined.

(** C10. When [fsmAdd] on slot [state] succeeds, [currentState], the number
    of slots and every slot other than [state] are as they were. *)
Theorem fsmAdd_frame (h : FsmHandle_t) (state : N) (f en ex : fptr) :
  snd (fsmAdd h state f en ex) = 0%Z ->
  currentState (fst (fsmAdd h state f en ex)) = currentState h /\
  length (table (fst (fsmAdd h state f en ex))) = length (table h) /\
  (forall j : N,
     j <> state ->
     table (fst (fsmAdd h state f en ex)) !! N.to_nat j
     = table h !! N.to_nat j).
Proof.
  destruct (fsmAdd_cases h state f en ex) as [[Hs Hf] | Hbad].
  - rewrite fsmAdd_success by assumption. cbn [fst snd]. intros _.
    split; [reflexivity|]. split; [apply store_slot_length|].
    intros j Hj. apply store_slot_lookup_ne. lia.
  - rewrite fsmAdd_failure by assumption. cbn [fst snd]. discriminate.
Qed.

Lemma fsmAdd_frame_witness :
  snd (fsmAdd stale_handle 3 21 NULL 23) = 0%Z /\
  currentState (fst (fsmAdd stale_handle 3 21 NULL 23)) = 200 /\
  table (fst (fsmAdd stale_handle 3 21 NULL 23)) !! 4%nat
    = Some (mkStateDef 11 12 13).
Proof.
  assert (Hrc : snd (fsmAdd stale_handle 3 21 NULL 23) = 0%Z) by by_evaluation.
  destruct (fsmAdd_frame stale_handle 3 21 NULL 23 Hrc) as (Hcur & _ & Hother).
  split; [exact Hrc|]. split; [exact Hcur|].
  exact (eq_trans (Hother 4 ltac:(by_evaluation)) eq_refl).
Defined.

(** ** fsmRun *)

Section RunFacts.

Context {Env : Type}.
Variable stateFuncs : fptr -> FsmHandle_t -> Env -> Env * N.
Variable voidFuncs : fptr -> FsmHandle_t -> Env -> Env.

#[local] Abbreviation fsmRun' := (fsmRun stateFuncs voidFuncs).
#[local] Abbreviation fsmRun_times' := (fsmRun_times stateFuncs voidFuncs).
#[local] Abbreviation hook_effect' := (hook_effect voidFuncs).
#[local] Abbreviation fsmRun_path' := (fsmRun_path stateFuncs voidFuncs).

Ltac run_unfold :=
  unfold fsmRun, load_current_slot, load_slot, load_currentState,
    call_stateFunc, call_voidFunc, assign_currentState, current_slot,
    mbind, run_bind, mret, run_ret in *.

Ltac run_simpl := cbn -[N.eqb NULL to_uint8 N.to_nat].

Lemma null_eqb_false (f : fptr) : f <> NULL -> (NULL =? f) = false.
Proof. intros Hf. apply N.eqb_neq. congruence. Qed.

(** Line 100 fails: nothing happens. *)
Lemma fsmRun_idle (w : world Env) (d : FsmStateDef_t) :
  current_slot (fsm w) = Some d ->
  stateFunc d = NULL ->
  fsmRun' w = Done (tt, w).
Proof.
  intros Hd Hnull. run_unfold. rewrite Hd, Hnull. reflexivity.
Qed.

(** Line 104 fails: the state function has run and nothing else. *)
Lemma fsmRun_stay (w : world Env) (d : FsmStateDef_t) (e1 : Env) (r : N) :
  current_slot (fsm w) = Some d ->
  stateFunc d <> NULL ->
  stateFuncs (stateFunc d) (fsm w) (env w) = (e1, r) ->
  to_uint8 r = currentState (fsm w) ->
  fsmRun' w
  = Done (tt, mkWorld (fsm w) e1
                (calls w ++ [mkEvent AtStateFunc (stateFunc d) (fsm w)])).
Proof.
  intros Hd Hf Hcall Hsame. run_unfold.
  rewrite Hd, (null_eqb_false _ Hf). run_simpl. rewrite Hd, Hcall. run_simpl.
  rewrite Hsame, N.eqb_refl. reflexivity.
Qed.

(** Lines 106-114 with a target inside the table. *)
Lemma fsmRun_transition (w : world Env) (d tgt : FsmStateDef_t)
    (e1 : Env) (r : N) :
  current_slot (fsm w) = Some d ->
  stateFunc d <> NULL ->
  stateFuncs (stateFunc d) (fsm w) (env w) = (e1, r) ->
  to_uint8 r <> currentState (fsm w) ->
  table (fsm w) !! N.to_nat (to_uint8 r) = Some tgt ->
  fsmRun' w
  = Done (tt,
      mkWorld (store_currentState (to_uint8 r) (fsm w))
        (hook_effect' (onEntryFunc tgt) (fsm w)
           (hook_effect' (onExitFunc d) (fsm w) e1))
        (calls w ++ mkEvent AtStateFunc (stateFunc d) (fsm w)
           :: hook_call AtOnExitFunc (onExitFunc d) (fsm w)
           ++ hook_call AtOnEntryFunc (onEntryFunc tgt) (fsm w))).
Proof.
  intros Hd Hf Hcall Hne Htgt. run_unfold.
  rewrite Hd, (null_eqb_false _ Hf). run_simpl. rewrite Hd, Hcall. run_simpl.
  assert ((currentState (fsm w) =? to_uint8 r) = false) as ->
    by (apply N.eqb_neq; congruence).
  run_simpl. rewrite Hd. unfold hook_call, hook_effect.
  destruct (NULL =? onExitFunc d); run_simpl; rewrite ?Hd; run_simpl;
    rewrite Htgt;
    destruct (NULL =? onEntryFunc tgt); run_simpl; rewrite ?Htgt; run_simpl;
    rewrite <- ?app_assoc; reflexivity.
Qed.

(** Line 110 with a target outside the table. *)
Lemma fsmRun_target_outside (w : world Env) (d : FsmStateDef_t)
    (e1 : Env) (r : N) :
  current_slot (fsm w) = Some d ->
  stateFunc d <> NULL ->
  stateFuncs (stateFunc d) (fsm w) (env w) = (e1, r) ->
  to_uint8 r <> currentState (fsm w) ->
  table (fsm w) !! N.to_nat (to_uint8 r) = None ->
  fsmRun' w = OutOfBounds (to_uint8 r).
Proof.
  intros Hd Hf Hcall Hne Htgt. run_unfold.
  rewrite Hd, (null_eqb_false _ Hf). run_simpl. rewrite Hd, Hcall. run_simpl.
  assert ((currentState (fsm w) =? to_uint8 r) = false) as ->
    by (apply N.eqb_neq; congruence).
  run_simpl. rewrite Hd.
  destruct (NULL =? onExitFunc d); run_simpl; rewrite ?Hd; run_simpl; rewrite Htgt;
    reflexivity.
Qed.

(** Line 100 with [currentState] outside the table. *)
Lemma fsmRun_current_outside (w : world Env) :
  current_slot (fsm w) = None ->
  fsmRun' w = OutOfBounds (currentState (fsm w)).
Proof. intros Hd. run_unfold. rewrite Hd. reflexivity. Qed.

Lemma fsmRun_takes_a_path (w : world Env) : fsmRun_path' w (fsmRun' w).
Proof.
  destruct (current_slot (fsm w)) as [d|] eqn:Hd.
  2: { rewrite fsmRun_current_outside by exact Hd. constructor. exact Hd. }
  destruct (N.eq_dec (stateFunc d) NULL) as [Hnull | Hf].
  { rewrite (fsmRun_idle w d Hd Hnull). econstructor; eassumption. }
  destruct (stateFuncs (stateFunc d) (fsm w) (env w)) as [e1 r] eqn:Hcall.
  destruct (N.eq_dec (to_uint8 r) (currentState (fsm w))) as [Hsame | Hne].
  { rewrite (fsmRun_stay w d e1 r Hd Hf Hcall Hsame).
    econstructor; eassumption. }
  destruct (table (fsm w) !! N.to_nat (to_uint8 r)) as [tgt|] eqn:Htgt.
  - rewrite (fsmRun_transition w d tgt e1 r Hd Hf Hcall Hne Htgt).
    econstructor; eassumption.
  - rewrite (fsmRun_target_outside w d e1 r Hd Hf Hcall Hne Htgt).
    econstructor; eassumption.
Qed.


Lemma app_cons_not_self {A : Type} (l k : list A) (x : A) : l ++ x :: k <> l.
Proof.
  intros Heq. apply (f_equal length) in Heq.
  rewrite length_app in Heq. cbn in Heq. lia.
Qed.

(** With a state function registered at [currentState], a run is never
    without effect: it ends outside the table or the log has grown by the
    call of that function. *)
Lemma fsmRun_registered_acts (w : world Env) (d : FsmStateDef_t) :
  current_slot (fsm w) = Some d ->
  stateFunc d <> NULL ->
  fsmRun' w <> Done (tt, w).
Proof.
  intros Hd Hf Hrun.
  destruct (fsmRun_takes_a_path w) as [Hd'|d0 Hd' Hnull|d0 e1 r Hd'|d0 tgt e1 r Hd'|];
    try discriminate; rewrite Hd in Hd'; inversion Hd'; subst d0.
  - contradiction.
  - destruct w as [h e c]. cbn in *.
    inversion Hrun as [[He Hc]]. apply app_cons_not_self in Hc. exact Hc.
  - destruct w as [h e c]. cbn in *.
    inversion Hrun as [[Hh He Hc]]. apply app_cons_not_self in Hc. exact Hc.
Qed.

(** Idle runs in a row. *)
Lemma fsmRun_times_idle (w : world Env) (d : FsmStateDef_t) (n : nat) :
  current_slot (fsm w) = Some d ->
  stateFunc d = NULL ->
  fsmRun_times' n w = Done (tt, w).
Proof.
  intros Hd Hnull. induction n as [|n IH]; [reflexivity|].
  change (fsmRun_times' (S n) w)
    with (match fsmRun' w with
          | Done (_, w') => fsmRun_times' n w'
          | OutOfBounds i => OutOfBounds i
          end).
  rewrite (fsmRun_idle w d Hd Hnull). exact IH.
Qed.

(** *** What one run does *)

(** C7. When the slot at [currentState] has no state function, one
    [fsmRun] completes (no access outside the table), calls no user
    function, and leaves the handle, table and [currentState], and the
    environment as they were. *)
Theorem fsmRun_idle_noop (w : world Env) (d : FsmStateDef_t) :
  current_slot (fsm w) = Some d ->
  stateFunc d = NULL ->
  fsmRun' w = Done (tt, w) /\
  (forall w' : world Env,
     fsmRun' w = Done (tt, w') ->
     calls w' = calls w /\ fsm w' = fsm w /\ env w' = env w).
Proof.
  intros Hd Hnull. rewrite (fsmRun_idle w d Hd Hnull).
  split; [reflexivity|]. intros w' [= <-]. auto.
Qed.

(** C6. When the slot at [currentState] has a state function and that
    function returns [currentState], one [fsmRun] calls the state function
    and nothing else, neither an entry nor an exit function, and the handle,
    so [currentState], is as it was. *)
Theorem fsmRun_same_state (w : world Env) (d : FsmStateDef_t)
    (e1 : Env) (r : N) :
  current_slot (fsm w) = Some d ->
  stateFunc d <> NULL ->
  stateFuncs (stateFunc d) (fsm w) (env w) = (e1, r) ->
  to_uint8 r = currentState (fsm w) ->
  exists w' : world Env,
    fsmRun' w = Done (tt, w') /\
    calls w' = calls w ++ [mkEvent AtStateFunc (stateFunc d) (fsm w)] /\
    fsm w' = fsm w /\
    currentState (fsm w') = currentState (fsm w) /\
    env w' = e1.
Proof.
  intros Hd Hf Hcall Hsame. eexists. split.
  - apply (fsmRun_stay w d e1 r); assumption.
  - cbn. auto.
Qed.

Lemma hook_call_seen (at_ : call_site) (f : fptr) (h : FsmHandle_t) :
  Forall (fun ev => seen ev = h /\ site ev = at_ /\ callee ev = f /\ f <> NULL)
         (hook_call at_ f h).
Proof.
  unfold hook_call. destruct (N.eqb_spec NULL f) as [Heq | Hne].
  - constructor.
  - repeat constructor. congruence.
Qed.

(** C2, for a target inside the table.  When the slot at [currentState] has
    a state function and that function returns a [stateNext] other than
    [currentState] that indexes a slot of the table, one [fsmRun] calls, in
    this order, the state function, the exit function of the old slot if it
    is not [NULL], and the entry function of slot [stateNext] if it is not
    [NULL]; each of the two finds the handle with [currentState] at its old
    value, which is not [stateNext]; and when the run is over
    [currentState] is [stateNext] and the table is as it was. *)
Theorem fsmRun_transition_order (w : world Env) (d tgt : FsmStateDef_t)
    (e1 : Env) (r : N) :
  current_slot (fsm w) = Some d ->
  stateFunc d <> NULL ->
  stateFuncs (stateFunc d) (fsm w) (env w) = (e1, r) ->
  to_uint8 r <> currentState (fsm w) ->
  table (fsm w) !! N.to_nat (to_uint8 r) = Some tgt ->
  exists w' : world Env,
    fsmRun' w = Done (tt, w') /\
    calls w' = calls w
               ++ mkEvent AtStateFunc (stateFunc d) (fsm w)
               :: hook_call AtOnExitFunc (onExitFunc d) (fsm w)
               ++ hook_call AtOnEntryFunc (onEntryFunc tgt) (fsm w) /\
    env w' = hook_effect' (onEntryFunc tgt) (fsm w)
               (hook_effect' (onExitFunc d) (fsm w) e1) /\
    Forall (fun ev => currentState (seen ev) = currentState (fsm w) /\
                      currentState (seen ev) <> to_uint8 r)
           (hook_call AtOnExitFunc (onExitFunc d) (fsm w)
            ++ hook_call AtOnEntryFunc (onEntryFunc tgt) (fsm w)) /\
    currentState (fsm w') = to_uint8 r /\
    table (fsm w') = table (fsm w).
Proof.
  intros Hd Hf Hcall Hne Htgt. eexists. split.
  - apply (fsmRun_transition w d tgt e1 r); assumption.
  - cbn [calls env fsm]. repeat split.
    apply Forall_app. split;
      (eapply Forall_impl; [apply hook_call_seen|]);
      intros ev (-> & _); split; congruence.
Qed.

(** C9. When the state function of the current slot returns a [stateNext]
    other than [currentState], below [FSM_MAX_NR_OF_STATES], whose slot has
    no state function, one [fsmRun] still makes the transition:
    [currentState] becomes [stateNext], the entry function of that slot
    being called if and only if it is not [NULL]; after that any number of
    runs does nothing at all; and once [fsmAdd] has put a state function in
    that slot, a run is not without effect any more. *)
Theorem fsmRun_into_unregistered (w : world Env) (d tgt : FsmStateDef_t)
    (e1 : Env) (r : N) :
  current_slot (fsm w) = Some d ->
  stateFunc d <> NULL ->
  stateFuncs (stateFunc d) (fsm w) (env w) = (e1, r) ->
  to_uint8 r <> currentState (fsm w) ->
  to_uint8 r < FSM_MAX_NR_OF_STATES ->
  table (fsm w) !! N.to_nat (to_uint8 r) = Some tgt ->
  stateFunc tgt = NULL ->
  exists w' : world Env,
    fsmRun' w = Done (tt, w') /\
    currentState (fsm w') = to_uint8 r /\
    calls w' = calls w
               ++ mkEvent AtStateFunc (stateFunc d) (fsm w)
               :: hook_call AtOnExitFunc (onExitFunc d) (fsm w)
               ++ (if NULL =? onEntryFunc tgt then []
                   else [mkEvent AtOnEntryFunc (onEntryFunc tgt) (fsm w)]) /\
    (forall n : nat, fsmRun_times' n w' = Done (tt, w')) /\
    (forall f en ex : fptr,
       f <> NULL ->
       let w'' := mkWorld (fst (fsmAdd (fsm w') (to_uint8 r) f en ex))
                          (env w') (calls w') in
       fsmRun' w'' <> Done (tt, w'')).
Proof.
  intros Hd Hf Hcall Hne Hlt Htgt Hnull. eexists. split.
  - apply (fsmRun_transition w d tgt e1 r); assumption.
  - cbn [calls env fsm]. split; [reflexivity|]. split; [reflexivity|]. split.
    + intros n. apply (fsmRun_times_idle _ tgt); [exact Htgt | exact Hnull].
    + intros f en ex Hf'. cbn zeta.
      rewrite fsmAdd_success by assumption. cbn [fst].
      apply (fsmRun_registered_acts _ (mkStateDef f en ex)); [|exact Hf'].
      unfold current_slot. cbn [fsm currentState store_currentState].
      apply store_slot_lookup_eq. cbn [table].
      apply lookup_lt_Some in Htgt. exact Htgt.
Qed.

End RunFacts.

(** ** The bound on [currentState] *)

Lemma fsmInit_handle_ok (h : FsmHandle_t) (initState : N) :
  handle_ok h -> handle_ok (fst (fsmInit h initState)).
Proof.
  intros Hok. unfold handle_ok, fsmInit. cbn zeta.
  rewrite (fsmInit_loop_clears h Hok).
  destruct (initState <? FSM_MAX_NR_OF_STATES); cbn; apply length_replicate.
Qed.

Lemma fsmInit_valid_state (h : FsmHandle_t) (initState : N) :
  valid_state (fst (fsmInit h initState)).
Proof.
  unfold valid_state, fsmInit. cbn zeta.
  destruct (N.ltb_spec initState FSM_MAX_NR_OF_STATES); cbn; [assumption|].
  by_evaluation.
Qed.

Lemma fsmAdd_handle_ok (h : FsmHandle_t) (state : N) (f en ex : fptr) :
  handle_ok h -> handle_ok (fst (fsmAdd h state f en ex)).
Proof.
  intros Hok. unfold handle_ok.
  destruct (fsmAdd_cases h state f en ex) as [[Hs Hf] | Hbad].
  - rewrite fsmAdd_success by assumption. cbn [fst].
    rewrite store_slot_length. exact Hok.
  - rewrite fsmAdd_failure by assumption. exact Hok.
Qed.

Lemma fsmAdd_currentState (h : FsmHandle_t) (state : N) (f en ex : fptr) :
  currentState (fst (fsmAdd h state f en ex)) = currentState h.
Proof.
  destruct (fsmAdd_cases h state f en ex) as [[Hs Hf] | Hbad].
  - rewrite fsmAdd_success by assumption. reflexivity.
  - rewrite fsmAdd_failure by assumption. reflexivity.
Qed.

(** In a handle of the C type the slots are those of index below
    [FSM_MAX_NR_OF_STATES]. *)
Lemma slot_inside_table_iff (h : FsmHandle_t) (s : N) :
  handle_ok h ->
  is_Some (table h !! N.to_nat s) <-> s < FSM_MAX_NR_OF_STATES.
Proof.
  intros Hok. rewrite lookup_lt_is_Some. unfold handle_ok in Hok. lia.
Qed.

Lemma valid_state_current_slot (h : FsmHandle_t) :
  handle_ok h -> valid_state h -> is_Some (current_slot h).
Proof.
  intros Hok Hvalid. apply lookup_lt_is_Some_2.
  unfold handle_ok in Hok. unfold valid_state in Hvalid. lia.
Qed.

Section Trusted.

Context {Env : Type}.
Variable stateFuncs : fptr -> FsmHandle_t -> Env -> Env * N.
Variable voidFuncs : fptr -> FsmHandle_t -> Env -> Env.

(** What [fsmRun] takes on trust: a state function returns the index of a
    slot. *)
Hypothesis returns_a_state :
  forall (f : fptr) (h : FsmHandle_t) (e : Env),
    to_uint8 (snd (stateFuncs f h e)) < FSM_MAX_NR_OF_STATES.

(** On that trust every call completes and keeps [currentState] inside the
    table. *)
Lemma api_keeps_valid_state (c : api_call) (w : world Env) :
  handle_ok (fsm w) -> valid_state (fsm w) ->
  exists w' : world Env,
    api stateFuncs voidFuncs c w = Done (tt, w') /\
    handle_ok (fsm w') /\ valid_state (fsm w').
Proof.
  intros Hok Hvalid. destruct c as [s | s f en ex |]; cbn [api].
  - eexists. split; [reflexivity|]. cbn [fsm].
    split; [apply fsmInit_handle_ok, Hok | apply fsmInit_valid_state].
  - eexists. split; [reflexivity|]. cbn [fsm].
    split; [apply fsmAdd_handle_ok, Hok|].
    unfold valid_state. rewrite fsmAdd_currentState. exact Hvalid.
  - destruct (valid_state_current_slot _ Hok Hvalid) as [d Hd].
    destruct (fsmRun_takes_a_path stateFuncs voidFuncs w)
      as [Hd'|d0 Hd' Hnull|d0 e1 r Hd' Hf Hcall|d0 tgt e1 r Hd' Hf Hcall|d0 e1 r Hd' Hf Hcall Hne Htgt].
    + congruence.
    + eauto.
    + eexists. split; [reflexivity|]. auto.
    + eexists. split; [reflexivity|]. cbn [fsm]. split; [exact Hok|].
      unfold valid_state. cbn [currentState store_currentState].
      specialize (returns_a_state (stateFunc d0) (fsm w) (env w)).
      rewrite Hcall in returns_a_state. exact returns_a_state.
    + exfalso. apply lookup_ge_None in Htgt.
      specialize (returns_a_state (stateFunc d0) (fsm w) (env w)).
      rewrite Hcall in returns_a_state. cbn [snd] in returns_a_state.
      unfold handle_ok in Hok. lia.
Qed.

Lemma api_seq_keeps_valid_state (cs : list api_call) (w : world Env) :
  handle_ok (fsm w) -> valid_state (fsm w) ->
  exists w' : world Env,
    api_seq stateFuncs voidFuncs cs w = Done (tt, w') /\
    handle_ok (fsm w') /\ valid_state (fsm w').
Proof.
  revert w. induction cs as [|c cs IH]; intros w Hok Hvalid.
  - exists w. auto.
  - destruct (api_keeps_valid_state c w Hok Hvalid) as (w1 & Hc & Hok1 & Hv1).
    destruct (IH w1 Hok1 Hv1) as (w' & Hcs & Hok' & Hv').
    exists w'. split; [|auto].
    cbn [api_seq]. unfold mbind, run_bind. rewrite Hc. exact Hcs.
Qed.

End Trusted.

Lemma demo_setup_world (s : N) (input : bool) :
  s < FSM_MAX_NR_OF_STATES ->
  api_seq demo_stateFuncs demo_voidFuncs (demo_setup s)
    (mkWorld stale_handle (mkDemoEnv input []) [])
  = Done (tt, demo_world s input).
Proof.
  intros Hs. unfold demo_setup, api_seq, api, on_handle, mbind, run_bind, mret, run_ret.
  cbn [fsm env calls].
  assert (Hinit : fst (fsmInit stale_handle s)
                  = mkHandle s (replicate 10 empty_slot)).
  { unfold fsmInit. cbn zeta. apply N.ltb_lt in Hs as ->.
    rewrite fsmInit_loop_clears by by_evaluation. reflexivity. }
  rewrite Hinit. reflexivity.
Qed.

Lemma demo_world_reachable (s : N) (input : bool) :
  s < FSM_MAX_NR_OF_STATES ->
  reachable demo_stateFuncs demo_voidFuncs (demo_world s input).
Proof.
  intros Hs. exists (mkWorld stale_handle (mkDemoEnv input []) []), s.
  eexists. split; [by_evaluation|]. apply (demo_setup_world s input Hs).
Qed.

(** ** The runs of the program *)

(** C1, where the code departs from it.  State 4 of the program has the state
    function that returns 200.  The program reaches that state with
    [currentState] inside the table; the next [fsmRun] does not keep it
    there: on its way to storing 200 in [currentState] it indexes the table
    at 200, outside its [FSM_MAX_NR_OF_STATES] slots. *)
Theorem fsmRun_unchecked_stateNext :
  reachable demo_stateFuncs demo_voidFuncs (demo_world 4 false) /\
  handle_ok (fsm (demo_world 4 false)) /\
  valid_state (fsm (demo_world 4 false)) /\
  ~ 200 < FSM_MAX_NR_OF_STATES /\
  api demo_stateFuncs demo_voidFuncs Run (demo_world 4 false) = OutOfBounds 200 /\
  ~ (exists w' : world demo_env,
       api demo_stateFuncs demo_voidFuncs Run (demo_world 4 false) = Done (tt, w') /\
       valid_state (fsm w')).
Proof.
  split; [apply demo_world_reachable; by_evaluation|].
  split; [by_evaluation|]. split; [by_evaluation|]. split; [by_evaluation|].
  assert (Hrun : api demo_stateFuncs demo_voidFuncs Run (demo_world 4 false)
                 = OutOfBounds 200).
  { cbn [api].
    apply (fsmRun_target_outside demo_stateFuncs demo_voidFuncs
             (demo_world 4 false) (mkStateDef 4 NULL 14) (mkDemoEnv false []) 200);
      by_evaluation. }
  split; [exact Hrun|]. intros (w' & Hdone & _). rewrite Hrun in Hdone.
  discriminate.
Qed.

(** C2 as it reads for any returned value: at state 4 of the program the
    premises hold, the state function returns 200, which is not
    [currentState], and the run ends at the table access of line 110 without
    [currentState] becoming 200. *)
Lemma fsmRun_transition_outside_table :
  current_slot (fsm (demo_world 4 false)) = Some (mkStateDef 4 NULL 14) /\
  stateFunc (mkStateDef 4 NULL 14) <> NULL /\
  demo_stateFuncs 4 (fsm (demo_world 4 false)) (env (demo_world 4 false))
    = (mkDemoEnv false [], 200) /\
  to_uint8 200 <> currentState (fsm (demo_world 4 false)) /\
  ~ (exists w' : world demo_env,
       fsmRun demo_stateFuncs demo_voidFuncs (demo_world 4 false) = Done (tt, w') /\
       currentState (fsm w') = to_uint8 200).
Proof.
  split; [by_evaluation|]. split; [by_evaluation|]. split; [by_evaluation|].
  split; [by_evaluation|].
  intros (w' & Hdone & _).
  rewrite (fsmRun_target_outside demo_stateFuncs demo_voidFuncs
             (demo_world 4 false) (mkStateDef 4 NULL 14) (mkDemoEnv false []) 200)
    in Hdone by by_evaluation.
  discriminate.
Qed.

Lemma fsmRun_transition_order_witness :
  exists w' : world demo_env,
    fsmRun demo_stateFuncs demo_voidFuncs (demo_world 0 false) = Done (tt, w') /\
    calls w' = [ mkEvent AtStateFunc 1 (mkHandle 0 demo_table);
                 mkEvent AtOnExitFunc 10 (mkHandle 0 demo_table);
                 mkEvent AtOnEntryFunc 11 (mkHandle 0 demo_table) ] /\
    record (env w') = [(10, 0); (11, 0)] /\
    currentState (fsm w') = 1.
Proof.
  destruct (fsmRun_transition_order demo_stateFuncs demo_voidFuncs
              (demo_world 0 false) (mkStateDef 1 NULL 10) (mkStateDef 2 11 NULL)
              (mkDemoEnv false []) 1)
    as (w' & Hrun & Hcalls & Henv & _ & Hcur & _); try by_evaluation.
  exists w'. split; [exact Hrun|]. split; [exact Hcalls|].
  split; [rewrite Henv; reflexivity | exact Hcur].
Defined.

Lemma fsmRun_same_state_witness :
  exists w' : world demo_env,
    fsmRun demo_stateFuncs demo_voidFuncs (demo_world 1 false) = Done (tt, w') /\
    calls w' = [mkEvent AtStateFunc 2 (mkHandle 1 demo_table)] /\
    fsm w' = mkHandle 1 demo_table.
Proof.
  destruct (fsmRun_same_state demo_stateFuncs demo_voidFuncs
              (demo_world 1 false) (mkStateDef 2 11 NULL) (mkDemoEnv false []) 1)
    as (w' & Hrun & Hcalls & Hfsm & _); try by_evaluation.
  exists w'. split; [exact Hrun|]. split; [exact Hcalls | exact Hfsm].
Defined.

Lemma fsmRun_idle_noop_witness :
  fsmRun demo_stateFuncs demo_voidFuncs (demo_world 8 true)
  = Done (tt, demo_world 8 true).
Proof.
  apply (fsmRun_idle_noop demo_stateFuncs demo_voidFuncs
           (demo_world 8 true) empty_slot); by_evaluation.
Defined.

Lemma fsmRun_into_unregistered_witness :
  exists w' : world demo_env,
    fsmRun demo_stateFuncs demo_voidFuncs (demo_world 3 false) = Done (tt, w') /\
    currentState (fsm w') = 7 /\
    calls w' = [mkEvent AtStateFunc 5 (mkHandle 3 demo_table)] /\
    fsmRun_times demo_stateFuncs demo_voidFuncs 3 w' = Done (tt, w').
Proof.
  destruct (fsmRun_into_unregistered demo_stateFuncs demo_voidFuncs
              (demo_world 3 false) (mkStateDef 5 NULL NULL) empty_slot
              (mkDemoEnv false []) 7)
    as (w' & Hrun & Hcur & Hcalls & Hidle & _); try by_evaluation.
  exists w'. split; [exact Hrun|]. split; [exact Hcur|].
  split; [exact Hcalls | apply Hidle].
Defined.

(** Three runs of the program with the input set: 0 to 1, 1 to 2, 2 back to
    0.  The record shows each entry and exit function with the
    [currentState] it found. *)
Example demo_three_runs :
  exists w' : world demo_env,
    fsmRun_times demo_stateFuncs demo_voidFuncs 3 (demo_world 0 true)
    = Done (tt, w') /\
    currentState (fsm w') = 0 /\
    record (env w') = [(10, 0); (11, 0); (12, 1); (13, 2)] /\
    map site (calls w')
    = [ AtStateFunc; AtOnExitFunc; AtOnEntryFunc;
        AtStateFunc; AtOnEntryFunc;
        AtStateFunc; AtOnExitFunc ].
Proof. eexists. split; [by_evaluation|]. repeat split. Qed.

(** * Further properties of the three functions *)

(** ** fsmInit and fsmAdd *)

Lemma fsmInit_result (h : FsmHandle_t) (initState : N) :
  handle_ok h ->
  fst (fsmInit h initState)
  = mkHandle (if initState <? FSM_MAX_NR_OF_STATES then initState else 0)
      (replicate (N.to_nat FSM_MAX_NR_OF_STATES) empty_slot).
Proof.
  intros Hok. unfold fsmInit. cbn zeta. rewrite (fsmInit_loop_clears h Hok).
  destruct (initState <? FSM_MAX_NR_OF_STATES); reflexivity.
Qed.

Lemma fsmInit_current_slot (h : FsmHandle_t) (initState : N) :
  handle_ok h -> current_slot (fst (fsmInit h initState)) = Some empty_slot.
Proof.
  intros Hok. pose proof (fsmInit_valid_state h initState) as Hvalid.
  unfold current_slot. unfold valid_state in Hvalid.
  rewrite (fsmInit_result h initState Hok) in *. cbn [table currentState] in *.
  apply lookup_replicate_2. lia.
Qed.

(** X1. After [fsmInit], whatever [initState] is, the handle has its slots,
    [currentState] is inside the table and the slot it indexes holds no
    function: the invariant [fsmRun] relies on is established, also when
    [fsmInit] returns -1. *)
Theorem fsmInit_establishes (h : FsmHandle_t) (initState : N) :
  handle_ok h ->
  handle_ok (fst (fsmInit h initState)) /\
  valid_state (fst (fsmInit h initState)) /\
  current_slot (fst (fsmInit h initState)) = Some empty_slot.
Proof.
  intros Hok. split; [apply fsmInit_handle_ok, Hok|].
  split; [apply fsmInit_valid_state | apply fsmInit_current_slot, Hok].
Qed.

Lemma fsmInit_establishes_witness :
  valid_state (fst (fsmInit stale_handle 255)) /\
  current_slot (fst (fsmInit stale_handle 255)) = Some empty_slot.
Proof.
  assert (Hok : handle_ok stale_handle) by by_evaluation.
  destruct (fsmInit_establishes stale_handle 255 Hok) as (_ & Hvalid & Hslot).
  split; [exact Hvalid | exact Hslot].
Defined.

(** X2. Two [fsmAdd] calls on different states commute whether or not they
    succeed: the handle is the same in both orders, and the return code of
    each call does not depend on the order. *)
Theorem fsmAdd_commute_any (h : FsmHandle_t)
    (s1 : N) (f1 en1 ex1 : fptr) (s2 : N) (f2 en2 ex2 : fptr) :
  s1 <> s2 ->
  fst (fsmAdd (fst (fsmAdd h s1 f1 en1 ex1)) s2 f2 en2 ex2)
  = fst (fsmAdd (fst (fsmAdd h s2 f2 en2 ex2)) s1 f1 en1 ex1) /\
  snd (fsmAdd (fst (fsmAdd h s1 f1 en1 ex1)) s2 f2 en2 ex2)
  = snd (fsmAdd h s2 f2 en2 ex2) /\
  snd (fsmAdd (fst (fsmAdd h s2 f2 en2 ex2)) s1 f1 en1 ex1)
  = snd (fsmAdd h s1 f1 en1 ex1).
Proof.
  intros Hne.
  destruct (fsmAdd_cases h s1 f1 en1 ex1) as [[Hs1 Hf1] | Hbad1];
    destruct (fsmAdd_cases h s2 f2 en2 ex2) as [[Hs2 Hf2] | Hbad2];
    rewrite ?fsmAdd_success, ?fsmAdd_failure by assumption; cbn [fst snd];
    rewrite ?fsmAdd_success, ?fsmAdd_failure by assumption; cbn [fst snd];
    repeat split.
  apply store_slot_commute. exact Hne.
Qed.

Lemma fsmAdd_commute_any_witness :
  fst (fsmAdd (fst (fsmAdd stale_handle 2 21 22 23)) 40 31 32 33)
  = fst (fsmAdd (fst (fsmAdd stale_handle 40 31 32 33)) 2 21 22 23).
Proof.
  apply (fsmAdd_commute_any stale_handle 2 21 22 23 40 31 32 33). by_evaluation.
Defined.

(** ** fsmRun *)

Section MoreRunFacts.

Context {Env : Type}.
Variable stateFuncs : fptr -> FsmHandle_t -> Env -> Env * N.
Variable voidFuncs : fptr -> FsmHandle_t -> Env -> Env.

#[local] Abbreviation fsmRun'' := (fsmRun stateFuncs voidFuncs).

(** X3. A handle fresh from [fsmInit] takes any number of [fsmRun] calls
    without effect: no user function is called, nothing is read outside the
    table, and the handle and the environment stay as they are. *)
Theorem fsmRun_after_fsmInit (h : FsmHandle_t) (initState : N)
    (e : Env) (log : list event) (n : nat) :
  handle_ok h ->
  fsmRun_times stateFuncs voidFuncs n (mkWorld (fst (fsmInit h initState)) e log)
  = Done (tt, mkWorld (fst (fsmInit h initState)) e log).
Proof.
  intros Hok. apply (fsmRun_times_idle _ _ _ empty_slot); [|reflexivity].
  apply fsmInit_current_slot, Hok.
Qed.

(** X4. For a handle with its slots, [fsmRun] completes, that is, reads
    nothing outside the table, exactly when [currentState] indexes a slot
    and that slot has no state function or its state function returns an
    index below [FSM_MAX_NR_OF_STATES]. *)
Theorem fsmRun_completes_iff (w : world Env) :
  handle_ok (fsm w) ->
  (exists w' : world Env, fsmRun'' w = Done (tt, w')) <->
  (exists d : FsmStateDef_t,
     current_slot (fsm w) = Some d /\
     (stateFunc d = NULL \/
      to_uint8 (snd (stateFuncs (stateFunc d) (fsm w) (env w)))
        < FSM_MAX_NR_OF_STATES)).
Proof.
  intros Hok. unfold handle_ok in Hok.
  destruct (fsmRun_takes_a_path stateFuncs voidFuncs w)
    as [Hd|d Hd Hnull|d e1 r Hd Hf Hcall Hsame|d tgt e1 r Hd Hf Hcall Hne Htgt
       |d e1 r Hd Hf Hcall Hne Htgt].
  - split; [intros (w' & [=]) | intros (d & Hd' & _); congruence].
  - split; [eauto | eauto].
  - split; [intros _ | eauto]. exists d. split; [exact Hd|]. right.
    rewrite Hcall. cbn [snd]. rewrite Hsame.
    apply lookup_lt_Some in Hd. lia.
  - split; [intros _ | eauto]. exists d. split; [exact Hd|]. right.
    rewrite Hcall. cbn [snd]. apply lookup_lt_Some in Htgt. lia.
  - split; [intros (w' & [=])|]. intros (d' & Hd' & [Hnull | Hlt]).
    + rewrite Hd in Hd'. injection Hd' as <-. contradiction.
    + rewrite Hd in Hd'. injection Hd' as <-. rewrite Hcall in Hlt.
      cbn [snd] in Hlt. apply lookup_ge_None in Htgt. lia.
Qed.

(** X5. A [fsmRun] that completes on a handle with its slots never touches
    the table; [currentState] was inside the table before and is inside it
    after; and when the current slot has a state function, [currentState]
    is afterwards what that function returned. *)
Theorem fsmRun_frame (w w' : world Env) :
  handle_ok (fsm w) ->
  fsmRun'' w = Done (tt, w') ->
  table (fsm w') = table (fsm w) /\
  valid_state (fsm w) /\
  valid_state (fsm w') /\
  (forall d : FsmStateDef_t,
     current_slot (fsm w) = Some d ->
     stateFunc d <> NULL ->
     currentState (fsm w')
     = to_uint8 (snd (stateFuncs (stateFunc d) (fsm w) (env w)))).
Proof.
  intros Hok Hrun. unfold handle_ok in Hok. unfold valid_state.
  destruct (fsmRun_takes_a_path stateFuncs voidFuncs w)
    as [Hd|d Hd Hnull|d e1 r Hd Hf Hcall Hsame|d tgt e1 r Hd Hf Hcall Hne Htgt
       |d e1 r Hd Hf Hcall Hne Htgt];
    try discriminate; injection Hrun as <-; cbn [fsm table currentState store_currentState];
    pose proof (lookup_lt_Some _ _ _ Hd) as Hcur.
  - repeat split; try lia. intros d' Hd' Hf'. congruence.
  - repeat split; try lia. intros d' Hd' _.
    rewrite Hd in Hd'. injection Hd' as <-. rewrite Hcall. cbn [snd]. congruence.
  - apply lookup_lt_Some in Htgt. repeat split; try lia. intros d' Hd' _.
    rewrite Hd in Hd'. injection Hd' as <-. rewrite Hcall. reflexivity.
Qed.

(** X6. In a [fsmRun] that completes, the calls into user code are at most
    three, at most one from each place and in the order state function, exit
    function, entry function; no call goes through [NULL]; every callee finds
    the handle as it was when the run began; the state and exit functions
    called are those of the slot at the old [currentState]; and an entry
    function is called only when [currentState] changes, and is that of the
    slot at the new [currentState]. *)
Theorem fsmRun_calls (w w' : world Env) :
  fsmRun'' w = Done (tt, w') ->
  exists new : list event,
    calls w' = calls w ++ new /\
    sublist (map site new) [AtStateFunc; AtOnExitFunc; AtOnEntryFunc] /\
    Forall (fun ev =>
      callee ev <> NULL /\
      seen ev = fsm w /\
      exists d : FsmStateDef_t,
        callee ev = member_at (site ev) d /\
        match site ev with
        | AtOnEntryFunc =>
            currentState (fsm w') <> currentState (fsm w) /\
            table (fsm w) !! N.to_nat (currentState (fsm w')) = Some d
        | _ => current_slot (fsm w) = Some d
        end) new.
Proof.
  intros Hrun.
  destruct (fsmRun_takes_a_path stateFuncs voidFuncs w)
    as [Hd|d Hd Hnull|d e1 r Hd Hf Hcall Hsame|d tgt e1 r Hd Hf Hcall Hne Htgt
       |d e1 r Hd Hf Hcall Hne Htgt];
    try discriminate; injection Hrun as <-; cbn [fsm calls currentState store_currentState].
  - exists []. rewrite app_nil_r. split; [reflexivity|].
    split; [|constructor]. cbn. repeat constructor.
  - eexists. split; [reflexivity|]. split; [cbn; repeat constructor|].
    repeat constructor; cbn; eauto.
  - eexists. split; [reflexivity|]. split.
    + unfold hook_call.
      destruct (NULL =? onExitFunc d), (NULL =? onEntryFunc tgt); cbn;
        eauto 8 using sublist_nil, sublist_skip, sublist_cons.
    + constructor; [cbn; eauto|]. apply Forall_app. split.
      * eapply Forall_impl; [apply hook_call_seen|].
        intros ev (-> & -> & -> & Hnn). cbn. eauto.
      * eapply Forall_impl; [apply hook_call_seen|].
        intros ev (-> & -> & -> & Hnn). cbn.
        split; [exact Hnn|]. split; [reflexivity|]. exists tgt. auto.
Qed.

(** X7. Once [fsmAdd] has put a state function [f] in the slot at
    [currentState], the next [fsmRun] calls [f] before anything else: it
    completes with a log that continues with the call of [f], or it ends at
    a table access after that call. *)
Theorem fsmAdd_then_fsmRun (w : world Env) (f en ex : fptr) :
  handle_ok (fsm w) ->
  valid_state (fsm w) ->
  f <> NULL ->
  (exists i : N,
     fsmRun'' (mkWorld (fst (fsmAdd (fsm w) (currentState (fsm w)) f en ex))
                 (env w) (calls w))
     = OutOfBounds i /\
     i = to_uint8 (snd (stateFuncs f
           (fst (fsmAdd (fsm w) (currentState (fsm w)) f en ex)) (env w)))) \/
  (exists (w' : world Env) (rest : list event),
     fsmRun'' (mkWorld (fst (fsmAdd (fsm w) (currentState (fsm w)) f en ex))
                 (env w) (calls w))
     = Done (tt, w') /\
     calls w'
     = calls w
       ++ mkEvent AtStateFunc f
            (fst (fsmAdd (fsm w) (currentState (fsm w)) f en ex))
       :: rest).
Proof.
  intros Hok Hvalid Hf. unfold handle_ok in Hok. unfold valid_state in Hvalid.
  rewrite fsmAdd_success by assumption. cbn [fst].
  set (h1 := store_slot (currentState (fsm w)) (fun _ => mkStateDef f en ex) (fsm w)).
  assert (Hslot : current_slot h1 = Some (mkStateDef f en ex)).
  { unfold current_slot, h1. rewrite store_slot_currentState.
    apply store_slot_lookup_eq. lia. }
  destruct (fsmRun_takes_a_path stateFuncs voidFuncs (mkWorld h1 (env w) (calls w)))
    as [Hd|d Hd Hnull|d e1 r Hd Hf' Hcall Hsame|d tgt e1 r Hd Hf' Hcall Hne Htgt
       |d e1 r Hd Hf' Hcall Hne Htgt];
    cbn [fsm env calls] in *; rewrite Hslot in Hd; try discriminate;
    injection Hd as <-; cbn [stateFunc] in *.
  - contradiction.
  - right. eexists _, []. split; reflexivity.
  - right. eexists _, _. split; reflexivity.
  - left. eexists. split; [reflexivity|]. rewrite Hcall. reflexivity.
Qed.


End MoreRunFacts.

(** X9. With state functions that return only indices below
    [FSM_MAX_NR_OF_STATES], a program that begins with [fsmInit] on a handle
    with its slots, stale or not, and goes on with any calls never reads
    outside the table: every call completes, and at the end [currentState]
    is inside the table. *)
Theorem trusted_program_stays_in_table {Env : Type}
    (stateFuncs : fptr -> FsmHandle_t -> Env -> Env * N)
    (voidFuncs : fptr -> FsmHandle_t -> Env -> Env)
    (w0 : world Env) (initState : N) (cs : list api_call) :
  (forall (f : fptr) (h : FsmHandle_t) (e : Env),
     to_uint8 (snd (stateFuncs f h e)) < FSM_MAX_NR_OF_STATES) ->
  handle_ok (fsm w0) ->
  exists w' : world Env,
    api_seq stateFuncs voidFuncs (Init initState :: cs) w0 = Done (tt, w') /\
    handle_ok (fsm w') /\
    valid_state (fsm w').
Proof.
  intros Htrust Hok.
  destruct (api_seq_keeps_valid_state stateFuncs voidFuncs Htrust cs
              (mkWorld (fst (fsmInit (fsm w0) initState)) (env w0) (calls w0)))
    as (w' & Hseq & Hok' & Hvalid').
  - apply fsmInit_handle_ok, Hok.
  - apply fsmInit_valid_state.
  - exists w'. split; [exact Hseq | auto].
Qed.

Lemma polite_stateFuncs_in_table (f : fptr) (h : FsmHandle_t) (e : demo_env) :
  to_uint8 (snd (polite_stateFuncs f h e)) < FSM_MAX_NR_OF_STATES.
Proof.
  cbn [polite_stateFuncs snd].
  assert (f mod FSM_MAX_NR_OF_STATES < FSM_MAX_NR_OF_STATES)
    by (apply N.mod_lt; by_evaluation).
  pose proof FSM_MAX_NR_OF_STATES_le_UINT8_MAX.
  rewrite to_uint8_small by lia. assumption.
Qed.

Lemma trusted_program_stays_in_table_witness :
  exists w' : world demo_env,
    api_seq polite_stateFuncs demo_voidFuncs
      [Init 77; Add 0 13 NULL 10; Run; Run]
      (mkWorld stale_handle (mkDemoEnv false []) [])
    = Done (tt, w') /\
    valid_state (fsm w').
Proof.
  destruct (trusted_program_stays_in_table polite_stateFuncs demo_voidFuncs
              (mkWorld stale_handle (mkDemoEnv false []) []) 77
              [Add 0 13 NULL 10; Run; Run] polite_stateFuncs_in_table)
    as (w' & Hseq & _ & Hvalid); [by_evaluation|].
  exists w'. split; [exact Hseq | exact Hvalid].
Defined.

(** ** Runs of the program, for the further properties *)

Lemma fsmRun_after_fsmInit_witness :
  fsmRun_times demo_stateFuncs demo_voidFuncs 5
    (mkWorld (fst (fsmInit stale_handle 3)) (mkDemoEnv true []) [])
  = Done (tt, mkWorld (fst (fsmInit stale_handle 3)) (mkDemoEnv true []) []).
Proof.
  apply (fsmRun_after_fsmInit demo_stateFuncs demo_voidFuncs stale_handle 3).
  by_evaluation.
Defined.

Lemma fsmRun_completes_iff_witness :
  (exists w' : world demo_env,
     fsmRun demo_stateFuncs demo_voidFuncs (demo_world 0 false) = Done (tt, w')) /\
  ~ (exists w' : world demo_env,
       fsmRun demo_stateFuncs demo_voidFuncs (demo_world 4 false) = Done (tt, w')).
Proof.
  split.
  - apply (fsmRun_completes_iff demo_stateFuncs demo_voidFuncs (demo_world 0 false));
      [by_evaluation|].
    exists (mkStateDef 1 NULL 10). split; [by_evaluation|]. right. by_evaluation.
  - intros Hdone.
    apply (fsmRun_completes_iff demo_stateFuncs demo_voidFuncs (demo_world 4 false))
      in Hdone; [|by_evaluation].
    destruct Hdone as (d & Hd & Hcases).
    vm_compute in Hd. injection Hd as <-.
    destruct Hcases as [Hnull | Hlt]; [discriminate Hnull|].
    vm_compute in Hlt. discriminate Hlt.
Defined.

Lemma fsmRun_frame_witness :
  table (mkHandle 1 demo_table) = table (fsm (demo_world 0 false)) /\
  valid_state (mkHandle 1 demo_table).
Proof.
  destruct (fsmRun_frame demo_stateFuncs demo_voidFuncs (demo_world 0 false)
              (mkWorld (mkHandle 1 demo_table)
                 (mkDemoEnv false [(10, 0); (11, 0)])
                 [ mkEvent AtStateFunc 1 (mkHandle 0 demo_table);
                   mkEvent AtOnExitFunc 10 (mkHandle 0 demo_table);
                   mkEvent AtOnEntryFunc 11 (mkHandle 0 demo_table) ]))
    as (Htable & _ & Hvalid & _); [by_evaluation | by_evaluation |].
  split; [exact Htable | exact Hvalid].
Defined.

Lemma fsmRun_calls_witness :
  exists new : list event,
    [ mkEvent AtStateFunc 3 (mkHandle 2 demo_table);
      mkEvent AtOnExitFunc 13 (mkHandle 2 demo_table) ]
    = [] ++ new /\
    sublist (map site new) [AtStateFunc; AtOnExitFunc; AtOnEntryFunc].
Proof.
  destruct (fsmRun_calls demo_stateFuncs demo_voidFuncs (demo_world 2 false)
              (mkWorld (mkHandle 0 demo_table)
                 (mkDemoEnv false [(13, 2)])
                 [ mkEvent AtStateFunc 3 (mkHandle 2 demo_table);
                   mkEvent AtOnExitFunc 13 (mkHandle 2 demo_table) ]))
    as (new & Hcalls & Horder & _); [by_evaluation|].
  exists new. split; [exact Hcalls | exact Horder].
Defined.

Lemma fsmAdd_then_fsmRun_witness :
  exists (w' : world demo_env) (rest : list event),
    fsmRun demo_stateFuncs demo_voidFuncs
      (mkWorld (fst (fsmAdd (mkHandle 8 demo_table) 8 1 NULL NULL))
         (mkDemoEnv false []) [])
    = Done (tt, w') /\
    calls w'
    = mkEvent AtStateFunc 1 (fst (fsmAdd (mkHandle 8 demo_table) 8 1 NULL NULL))
      :: rest.
Proof.
  destruct (fsmAdd_then_fsmRun demo_stateFuncs demo_voidFuncs
              (demo_world 8 false) 1 NULL NULL)
    as [(i & Hout & _) | (w' & rest & Hrun & Hcalls)];
    [by_evaluation | by_evaluation | by_evaluation | |].
  - exfalso. vm_compute in Hout. discriminate Hout.
  - exists w', rest. split; [exact Hrun | exact Hcalls].
Defined.

